(** * Shallow embedding of the agentic RAG workflow of [src/docker/backend/rag_agent.py]

    Python exceptions are modelled by a small exception monad [exc]:
    [Ret a] is a normal return, [Raise e] an exception whose [str(e)] is [e].
    External services (the LLM HTTP endpoint, the embedding model and the
    Qdrant index) are oracles passed as arguments. *)

From Stdlib Require Import String Ascii List Arith Lia QArith Qround ZArith.
From Stdlib Require DecimalNat.
Import ListNotations.
Open Scope string_scope.
Open Scope nat_scope.

(* ------------------------------------------------------------------ *)
(** ** Exceptions *)

Inductive exc (A : Type) : Type :=
| Ret (a : A)
| Raise (e : string).
Arguments Ret {A} a.
Arguments Raise {A} e.

Definition exc_bind {A B} (c : exc A) (k : A -> exc B) : exc B :=
  match c with
  | Ret a => k a
  | Raise e => Raise e
  end.

(** [try: c  except Exception as e: h(e)] *)
Definition catch {A} (c : exc A) (h : string -> exc A) : exc A :=
  match c with
  | Ret a => Ret a
  | Raise e => h e
  end.

Notation "x <- c ;; k" := (exc_bind c (fun x => k))
  (at level 61, c at next level, right associativity).

(* ------------------------------------------------------------------ *)
(** ** Python string helpers (ASCII model of [str]) *)

Definition nl : string := String "010"%char EmptyString.

(** [str.isspace] restricted to ASCII: \t \n \x0b \x0c \r, \x1c..\x1f, space. *)
Definition is_space (c : ascii) : bool :=
  let n := nat_of_ascii c in
  ((9 <=? n) && (n <=? 13)) || ((28 <=? n) && (n <=? 32)).

(** [str.isdigit] restricted to ASCII. *)
Definition is_digit (c : ascii) : bool :=
  let n := nat_of_ascii c in (48 <=? n) && (n <=? 57).

Fixpoint drop_spaces (l : list ascii) : list ascii :=
  match l with
  | [] => []
  | c :: r => if is_space c then drop_spaces r else l
  end.

(** [s.strip()] *)
Definition strip (s : string) : string :=
  string_of_list_ascii
    (rev (drop_spaces (rev (drop_spaces (list_ascii_of_string s))))).

(** [s.split('\n')] *)
Fixpoint split_nl (s : string) : list string :=
  match s with
  | EmptyString => [EmptyString]
  | String c r =>
      if Ascii.eqb c "010"%char then EmptyString :: split_nl r
      else match split_nl r with
           | [] => [String c EmptyString]
           | h :: t => String c h :: t
           end
  end.

(** [s[:n]] *)
Definition prefix_n (n : nat) (s : string) : string := substring 0 n s.

(** [sep.join(l)] *)
Fixpoint join (sep : string) (l : list string) : string :=
  match l with
  | [] => ""
  | [x] => x
  | x :: r => x ++ sep ++ join sep r
  end.

Fixpoint string_of_uint (d : Decimal.uint) : string :=
  match d with
  | Decimal.Nil => ""
  | Decimal.D0 d => "0" ++ string_of_uint d
  | Decimal.D1 d => "1" ++ string_of_uint d
  | Decimal.D2 d => "2" ++ string_of_uint d
  | Decimal.D3 d => "3" ++ string_of_uint d
  | Decimal.D4 d => "4" ++ string_of_uint d
  | Decimal.D5 d => "5" ++ string_of_uint d
  | Decimal.D6 d => "6" ++ string_of_uint d
  | Decimal.D7 d => "7" ++ string_of_uint d
  | Decimal.D8 d => "8" ++ string_of_uint d
  | Decimal.D9 d => "9" ++ string_of_uint d
  end.

(** [str(n)] for a non-negative int *)
Definition str_nat (n : nat) : string := string_of_uint (Nat.to_uint n).

(** Nearest integer to [y], ties to even. *)
Definition round_half_even (y : Q) : Z :=
  let f := Qfloor y in
  let r := (y - inject_Z f)%Q in
  if Qlt_le_dec r (1 # 2) then f
  else if Qeq_bool r (1 # 2) then (if Z.even f then f else (f + 1)%Z)
  else (f + 1)%Z.

(** [2 ^ e] for an integer exponent. *)
Definition pow2 (e : Z) : Q :=
  match e with
  | Z0 => 1%Q
  | Zpos p => inject_Z (Z.pow_pos 2 p)
  | Zneg p => 1 # (Pos.pow 2 p)
  end.

(** Nearest binary64 value (53-bit significand, ties to even) to a positive
    rational. The exponent range is not bounded: the values rounded here are
    [0] or at least [0.001] in magnitude and no larger than a double, so
    neither subnormals nor overflow arise. *)
Definition nearest_double_pos (q : Q) : Q :=
  let e0 := (Z.log2 (Qnum q) - Z.log2 (Zpos (Qden q)) - 52)%Z in
  let e :=
    if Qlt_le_dec (q / pow2 e0) (pow2 52) then (e0 - 1)%Z
    else if Qlt_le_dec (q / pow2 e0) (pow2 53) then e0
    else (e0 + 1)%Z in
  (inject_Z (round_half_even (q / pow2 e)) * pow2 e)%Q.

Definition nearest_double (q : Q) : Q :=
  match Qnum q with
  | Z0 => 0%Q
  | Zpos _ => nearest_double_pos q
  | Zneg _ => (- nearest_double_pos (- q))%Q
  end.

(** [round(x, 3)] on a float [x] (CPython's [float.__round__]): the exact
    value of [x] is rounded to 3 decimals, ties to even, and the resulting
    decimal is converted back to the nearest double. *)
Definition round3 (x : Q) : Q :=
  nearest_double (inject_Z (round_half_even (x * (1000 # 1))) / (1000 # 1))%Q.

(* ------------------------------------------------------------------ *)
(** ** Data model *)

(** A retrieved context ([Dict[str, Any]] built in [retrieval_node]). *)
Record context := mk_context {
  content : string;
  document_id : string;
  section_number : string;
  effective_date : string;
  jurisdiction : string;
  score : Q;
  sub_query : string
}.

(** A citation entry built in [synthesis_node]. *)
Record citation := mk_citation {
  cit_document_id : string;
  cit_section_number : string;
  cit_effective_date : string;
  cit_jurisdiction : string;
  relevance_score : Q;
  snippet : string
}.

(** A Python dict with string keys, in insertion order. *)
Definition dict (V : Type) := list (string * V).

(** [d[k] = v]: replaces in place when [k] is present, appends otherwise. *)
Fixpoint dict_set {V} (k : string) (v : V) (d : dict V) : dict V :=
  match d with
  | [] => [(k, v)]
  | (k', v') :: r =>
      if String.eqb k k' then (k, v) :: r else (k', v') :: dict_set k v r
  end.

(** [AgentState] *)
Record AgentState := mk_state {
  original_query : string;
  decomposed_queries : list string;
  retrieved_contexts : list context;
  synthesized_answer : string;
  citations : dict citation;
  validation_passed : bool;
  error : option string
}.

Definition set_decomposed (l : list string) (s : AgentState) : AgentState :=
  {| original_query := original_query s; decomposed_queries := l;
     retrieved_contexts := retrieved_contexts s;
     synthesized_answer := synthesized_answer s; citations := citations s;
     validation_passed := validation_passed s; error := error s |}.

Definition set_contexts (l : list context) (s : AgentState) : AgentState :=
  {| original_query := original_query s; decomposed_queries := decomposed_queries s;
     retrieved_contexts := l;
     synthesized_answer := synthesized_answer s; citations := citations s;
     validation_passed := validation_passed s; error := error s |}.

Definition set_answer (a : string) (s : AgentState) : AgentState :=
  {| original_query := original_query s; decomposed_queries := decomposed_queries s;
     retrieved_contexts := retrieved_contexts s;
     synthesized_answer := a; citations := citations s;
     validation_passed := validation_passed s; error := error s |}.

Definition set_citations (c : dict citation) (s : AgentState) : AgentState :=
  {| original_query := original_query s; decomposed_queries := decomposed_queries s;
     retrieved_contexts := retrieved_contexts s;
     synthesized_answer := synthesized_answer s; citations := c;
     validation_passed := validation_passed s; error := error s |}.

Definition set_validation (b : bool) (s : AgentState) : AgentState :=
  {| original_query := original_query s; decomposed_queries := decomposed_queries s;
     retrieved_contexts := retrieved_contexts s;
     synthesized_answer := synthesized_answer s; citations := citations s;
     validation_passed := b; error := error s |}.

Definition set_error (e : option string) (s : AgentState) : AgentState :=
  {| original_query := original_query s; decomposed_queries := decomposed_queries s;
     retrieved_contexts := retrieved_contexts s;
     synthesized_answer := synthesized_answer s; citations := citations s;
     validation_passed := validation_passed s; error := e |}.

(* ------------------------------------------------------------------ *)
(** ** External services *)

(** What [requests.post] of [CloudRunLLM.invoke] can do. *)
Inductive http_outcome :=
| HttpTimeout                          (* requests.exceptions.Timeout *)
| HttpRequestError (detail : string)   (* other RequestException, incl. raise_for_status *)
| HttpOther (detail : string)          (* any other exception, not caught by the wrapper *)
| HttpOk (content_field : option string). (* result.get('content') *)

(** The HTTP endpoint: prompt, max_tokens, temperature. *)
Definition llm_post := string -> nat -> Q -> http_outcome.

(** [CloudRunLLM.invoke] *)
Definition CloudRunLLM_invoke (post : llm_post) (prompt : string) (max_tokens : nat)
    (temperature : Q) : exc string :=
  match post prompt max_tokens temperature with
  | HttpTimeout => Raise "LLM request timeout - Cloud Run may be cold starting"
  | HttpRequestError d => Raise ("LLM request failed: " ++ d)
  | HttpOther d => Raise d
  | HttpOk c => Ret (strip (match c with Some t => t | None => "" end))
  end.

(** [embeddings_model.encode(...)] *)
Definition encoder := string -> exc (list Q).

(** A Qdrant search hit: [payload] is [None] or a str-valued dict. *)
Record hit := mk_hit {
  hit_score : Q;
  payload : option (dict string)
}.

(** [qdrant_client.search(collection_name, query_vector, limit)] *)
Definition searcher := string -> list Q -> nat -> exc (list hit).

Definition QDRANT_COLLECTION_NAME : string := "reguscope_compliance_kb".

(* ------------------------------------------------------------------ *)
(** ** Node 1: query decomposition *)

Definition decomposition_prompt (q : string) : string :=
  "Task: Break this regulatory question into 2-3 specific sub-questions." ++ nl ++ nl ++
  "Question: " ++ q ++ nl ++ nl ++
  "Format: Return only numbered sub-questions, one per line." ++ nl ++ nl ++
  "Sub-questions:".

(** The list comprehension of [query_decomposition_node]. *)
Definition keep_line (line : string) : bool :=
  negb (String.eqb (strip line) "") &&
  existsb is_digit (list_ascii_of_string (prefix_n 3 line)).

Definition parse_sub_queries (response : string) : list string :=
  map strip (filter keep_line (split_nl (strip response))).

Definition query_decomposition_node (post : llm_post) (state : AgentState)
    : exc AgentState :=
  let original_query := original_query state in
  catch
    (response <- CloudRunLLM_invoke post (decomposition_prompt original_query) 300 (3 # 10) ;;
     let sub_queries := parse_sub_queries response in
     let sub_queries := match sub_queries with
                        | [] => [original_query]
                        | _ => sub_queries
                        end in
     Ret (set_decomposed sub_queries state))
    (fun e => Ret (set_error (Some ("Decomposition error: " ++ e))
                    (set_decomposed [original_query] state))).

(* ------------------------------------------------------------------ *)
(** ** Node 2: retrieval *)

(** [payload.get(k, d)] *)
Fixpoint dict_get (p : dict string) (k d : string) : string :=
  match p with
  | [] => d
  | (k', v) :: r => if String.eqb k k' then v else dict_get r k d
  end.

Definition context_of_hit (p : dict string) (h : hit) (sq : string) : context :=
  {| content := dict_get p "text_preview" "";
     document_id := dict_get p "document_ID" "Unknown";
     section_number := dict_get p "section_number" "N/A";
     effective_date := dict_get p "effective_date" "Unknown";
     jurisdiction := dict_get p "jurisdiction" "Unknown";
     score := hit_score h;
     sub_query := sq |}.

(** The inner [for result in search_results] loop, appending to
    [all_contexts]; the appends done before an exception are kept. *)
Fixpoint append_hits (sq : string) (hits : list hit) (acc : list context)
    : list context * option string :=
  match hits with
  | [] => (acc, None)
  | h :: t =>
      match payload h with
      | None => (acc, Some "'NoneType' object has no attribute 'get'")
      | Some p => append_hits sq t (acc ++ [context_of_hit p h sq])%list
      end
  end.

(** One iteration of the outer loop: its [try] body and [except] handler.
    Threads [all_contexts] and [state["error"]]. *)
Definition retrieve_one (encode : encoder) (search : searcher) (sq : string)
    (acc : list context) (err : option string) : list context * option string :=
  match encode sq with
  | Raise e => (acc, Some ("Retrieval error: " ++ e))
  | Ret v =>
      match search QDRANT_COLLECTION_NAME v 3 with
      | Raise e => (acc, Some ("Retrieval error: " ++ e))
      | Ret hits =>
          match append_hits sq hits acc with
          | (acc', None) => (acc', err)
          | (acc', Some e) => (acc', Some ("Retrieval error: " ++ e))
          end
      end
  end.

Fixpoint retrieve_all (encode : encoder) (search : searcher) (sqs : list string)
    (acc : list context) (err : option string) : list context * option string :=
  match sqs with
  | [] => (acc, err)
  | sq :: rest =>
      let '(acc', err') := retrieve_one encode search sq acc err in
      retrieve_all encode search rest acc' err'
  end.

Definition retrieval_node (encode : encoder) (search : searcher) (state : AgentState)
    : exc AgentState :=
  let '(all_contexts, err) :=
    retrieve_all encode search (decomposed_queries state) [] (error state) in
  Ret (set_contexts all_contexts (set_error err state)).


(* ------------------------------------------------------------------ *)
(** ** Node 3: synthesis *)

Fixpoint source_blocks (i : nat) (ctxs : list context) : list string :=
  match ctxs with
  | [] => []
  | ctx :: r =>
      ("[Source " ++ str_nat (S i) ++ "] Doc: " ++ document_id ctx ++
       ", Section: " ++ section_number ctx ++ nl ++ content ctx)
      :: source_blocks (S i) r
  end.

Definition synthesis_prompt (q : string) (ctxs : list context) : string :=
  let context_str := join (nl ++ nl) (source_blocks 0 ctxs) in
  "You are a regulatory compliance expert. Answer this question using ONLY the provided sources." ++ nl ++ nl ++
  "Question: " ++ q ++ nl ++ nl ++
  "Sources:" ++ nl ++ context_str ++ nl ++ nl ++
  "Instructions:" ++ nl ++
  "1. Answer directly and accurately" ++ nl ++
  "2. Cite sources as [Source X]" ++ nl ++
  "3. If information is missing, state it clearly" ++ nl ++
  "4. Be concise but complete" ++ nl ++ nl ++
  "Answer:".

Definition citation_of_context (ctx : context) : citation :=
  {| cit_document_id := document_id ctx;
     cit_section_number := section_number ctx;
     cit_effective_date := effective_date ctx;
     cit_jurisdiction := jurisdiction ctx;
     relevance_score := round3 (score ctx);
     snippet := prefix_n 200 (content ctx) ++ "..." |}.

Definition source_key (n : nat) : string := "source_" ++ str_nat n.

(** [for i, ctx in enumerate(contexts): citations[f"source_{i+1}"] = ...] *)
Fixpoint build_citations (i : nat) (ctxs : list context) (d : dict citation)
    : dict citation :=
  match ctxs with
  | [] => d
  | ctx :: r =>
      build_citations (S i) r (dict_set (source_key (S i)) (citation_of_context ctx) d)
  end.

Definition synthesis_failure_answer : string := "Error generating answer.".

Definition synthesis_node (post : llm_post) (state : AgentState) : exc AgentState :=
  let original_query := original_query state in
  let contexts := retrieved_contexts state in
  catch
    (answer <- CloudRunLLM_invoke post (synthesis_prompt original_query contexts) 600 (5 # 10) ;;
     let state := set_answer (strip answer) state in
     Ret (set_citations (build_citations 0 contexts []) state))
    (fun e => Ret (set_error (Some ("Synthesis error: " ++ e))
                    (set_citations [] (set_answer synthesis_failure_answer state)))).

(* ------------------------------------------------------------------ *)
(** ** Node 4: validation *)

Definition validation_node (state : AgentState) : exc AgentState :=
  let answer := synthesized_answer state in
  let citations := citations state in
  let has_content := 50 <? String.length answer in
  let has_citations := 0 <? length citations in
  Ret (set_validation (has_content && has_citations) state).

(* ------------------------------------------------------------------ *)
(** ** Workflow graph and top-level invocation *)

(** A LangGraph node: a function of the state that may raise. *)
Definition node := AgentState -> exc AgentState.

(** [agent_graph.invoke]: decompose -> retrieve -> synthesize -> validate. *)
Definition run_graph (decompose retrieve synthesize validate : node) (s : AgentState)
    : exc AgentState :=
  s1 <- decompose s ;;
  s2 <- retrieve s1 ;;
  s3 <- synthesize s2 ;;
  validate s3.

Definition agent_graph (post : llm_post) (encode : encoder) (search : searcher)
    : AgentState -> exc AgentState :=
  run_graph (query_decomposition_node post) (retrieval_node encode search)
            (synthesis_node post) validation_node.

(** Values of the returned [citations] dict. *)
Inductive cit_value :=
| VCitation (c : citation)
| VStr (s : string).

(** The returned [Dict[str, Any]] with its two keys. *)
Record invoke_result := mk_result {
  answer : string;
  result_citations : dict cit_value
}.

Definition initial_state (query : string) : AgentState :=
  {| original_query := query; decomposed_queries := []; retrieved_contexts := [];
     synthesized_answer := ""; citations := []; validation_passed := false;
     error := None |}.

Definition apology_prefix : string :=
  "I encountered an error processing your compliance query: ".

(** [agent_workflow_invoke_sync], over any graph runner. *)
Definition agent_workflow_invoke_with (graph : AgentState -> exc AgentState)
    (query user_id : string) (trace_id : option string) : exc invoke_result :=
  catch
    (final_state <- graph (initial_state query) ;;
     Ret {| answer := synthesized_answer final_state;
            result_citations :=
              map (fun kv => (fst kv, VCitation (snd kv))) (citations final_state) |})
    (fun e => Ret {| answer := apology_prefix ++ e;
                     result_citations := [("error", VStr e)] |}).

Definition agent_workflow_invoke_sync (post : llm_post) (encode : encoder)
    (search : searcher) (query user_id : string) (trace_id : option string)
    : exc invoke_result :=
  agent_workflow_invoke_with (agent_graph post encode search) query user_id trace_id.

(* ------------------------------------------------------------------ *)
(** ** [CloudRunLLM.__init__]: the completion endpoint *)

Fixpoint drop_char (c : ascii) (l : list ascii) : list ascii :=
  match l with
  | [] => []
  | c' :: r => if Ascii.eqb c' c then drop_char c r else l
  end.

(** [s.rstrip('/')] *)
Definition rstrip_slash (s : string) : string :=
  string_of_list_ascii (rev (drop_char "/"%char (rev (list_ascii_of_string s)))).

(** [endpoint_url.rstrip('/') + '/completion'] *)
Definition completion_endpoint (endpoint_url : string) : string :=
  rstrip_slash endpoint_url ++ "/completion".

(* ------------------------------------------------------------------ *)
(** ** The FastAPI caller: [compliance_query] of [src/docker/main.py] *)

Record QueryRequest := mk_request {
  user_query : string;
  user_id : string
}.

(** A trace object: its id, and what [f_trace.update(...)] does (return or
    raise). *)
Record trace := mk_trace {
  trace_id_of : string;
  trace_update : exc unit
}.

(** The value bound to the parameter [f_trace=None]. FastAPI exposes it as an
    optional query parameter, so a request gives [None] or a query-string
    [str]; a trace object is kept for a caller that passes one. *)
Inductive ftrace_arg :=
| FTraceNone
| FTraceStr (s : string)
| FTraceObj (t : trace).

(** Python truthiness of [f_trace]: [None] and [""] are false. *)
Definition ftrace_truthy (f : ftrace_arg) : bool :=
  match f with
  | FTraceNone => false
  | FTraceStr s => negb (String.eqb s "")
  | FTraceObj _ => true
  end.

(** The attribute accesses [f_trace.id] and [f_trace.update(...)]. *)
Definition ftrace_id (f : ftrace_arg) : exc string :=
  match f with
  | FTraceNone => Raise "'NoneType' object has no attribute 'id'"
  | FTraceStr _ => Raise "'str' object has no attribute 'id'"
  | FTraceObj t => Ret (trace_id_of t)
  end.

Definition ftrace_update (f : ftrace_arg) : exc unit :=
  match f with
  | FTraceNone => Raise "'NoneType' object has no attribute 'update'"
  | FTraceStr _ => Raise "'str' object has no attribute 'update'"
  | FTraceObj t => trace_update t
  end.

(** [if f_trace: try: f_trace.update(...) except Exception: print(...)]. *)
Definition update_trace (f : ftrace_arg) : exc unit :=
  if ftrace_truthy f then catch (ftrace_update f) (fun _ => Ret tt) else Ret tt.

Record QueryResponse := mk_response {
  resp_answer : string;
  resp_citations : dict cit_value;
  resp_trace_id : option string
}.

Definition critical_error_answer : string :=
  "I am currently experiencing a critical error.".

(** [compliance_query], over the invocation function it calls. Line 65,
    [trace_id = f_trace.id if f_trace else None], runs before the [try], so
    an exception there leaves the endpoint (a [Raise] here). The dict
    returned by [agent_workflow_invoke_sync] always has both keys, so
    [result.get("answer", ...)] and [result.get("citations", ...)] are its
    two fields. Trace updates are wrapped in their own [try]. *)
Definition compliance_query
    (invoke : string -> string -> option string -> exc invoke_result)
    (request : QueryRequest) (f_trace : ftrace_arg) : exc QueryResponse :=
  trace_id <- (if ftrace_truthy f_trace
               then (i <- ftrace_id f_trace ;; Ret (Some i))
               else Ret None) ;;
  catch
    (result <- invoke (user_query request) (user_id request) trace_id ;;
     _ <- update_trace f_trace ;;
     Ret {| resp_answer := answer result; resp_citations := result_citations result;
            resp_trace_id := trace_id |})
    (fun e =>
       _ <- update_trace f_trace ;;
       Ret {| resp_answer := critical_error_answer;
              resp_citations := [("error", VStr e)]; resp_trace_id := trace_id |}).

(* ------------------------------------------------------------------ *)
(** ** Concrete runs *)

Example parse_numbered :
  parse_sub_queries ("  1. What is ITAR?" ++ nl ++ "" ++ nl ++ "2) Who enforces it? ")
  = ["1. What is ITAR?"; "2) Who enforces it?"].
Proof. reflexivity. Qed.

Example parse_unnumbered :
  parse_sub_queries ("Sure, here they are:" ++ nl ++ "What is ITAR?") = [].
Proof. reflexivity. Qed.

Example split_empty : split_nl "" = [""].
Proof. reflexivity. Qed.

Example str_nat_12 : source_key 12 = "source_12".
Proof. reflexivity. Qed.

Example round3_half_even : round3 (1 # 2000) == 0%Q.
Proof. vm_compute; reflexivity. Qed.

(** [round(0.0625, 3)]: the tie 62.5 goes to 62, and [0.062] is not a
    double, so the result is the double just below it. *)
Example round3_to_double : round3 (1 # 16) == (1116892707587883 # 18014398509481984)%Q.
Proof. vm_compute; reflexivity. Qed.

Example round3_negative : round3 (- (1 # 16)) == (- (1116892707587883 # 18014398509481984))%Q.
Proof. vm_compute; reflexivity. Qed.

(* ------------------------------------------------------------------ *)
(** ** Citation keys *)

Lemma string_of_uint_inj (d1 d2 : Decimal.uint) :
  string_of_uint d1 = string_of_uint d2 -> d1 = d2.
Proof.
  revert d2; induction d1; intros d2 H; destruct d2; simpl in H;
    try discriminate; try reflexivity;
    injection H as H; f_equal; apply IHd1; exact H.
Qed.

Lemma source_key_inj (a b : nat) : source_key a = source_key b -> a = b.
Proof.
  unfold source_key, str_nat; simpl; intros H.
  repeat (injection H as H).
  apply DecimalNat.Unsigned.to_uint_inj, string_of_uint_inj; exact H.
Qed.

Lemma dict_set_fresh {V} (k : string) (v : V) (d : dict V) :
  ~ In k (map fst d) -> dict_set k v d = (d ++ [(k, v)])%list.
Proof.
  induction d as [| [k' v'] r IH]; simpl; intros Hn; [reflexivity |].
  destruct (String.eqb_spec k k') as [-> | Hne].
  - exfalso; apply Hn; left; reflexivity.
  - rewrite IH; [reflexivity | intros Hin; apply Hn; right; exact Hin].
Qed.

Lemma source_key_not_before (i : nat) :
  ~ In (source_key (S i)) (map source_key (seq 1 i)).
Proof.
  rewrite in_map_iff; intros [j [Hj Hin]].
  apply source_key_inj in Hj; subst j.
  apply in_seq in Hin; lia.
Qed.

Lemma build_citations_shape (ctxs : list context) :
  forall (i : nat) (d : dict citation),
  map fst d = map source_key (seq 1 i) ->
  map fst (build_citations i ctxs d) = map source_key (seq 1 (i + length ctxs)) /\
  map snd (build_citations i ctxs d) = (map snd d ++ map citation_of_context ctxs)%list.
Proof.
  induction ctxs as [| ctx r IH]; intros i d Hd; simpl.
  - rewrite Nat.add_0_r, app_nil_r; split; [exact Hd | reflexivity].
  - rewrite dict_set_fresh by (rewrite Hd; apply source_key_not_before).
    destruct (IH (S i) (d ++ [(source_key (S i), citation_of_context ctx)])%list) as [H1 H2].
    + rewrite map_app, Hd, seq_S; simpl; rewrite map_app; reflexivity.
    + rewrite <- Nat.add_succ_comm; split; [exact H1 |].
      rewrite H2, map_app, <- app_assoc; reflexivity.
Qed.

Lemma build_citations_keys (ctxs : list context) :
  map fst (build_citations 0 ctxs []) = map source_key (seq 1 (length ctxs)) /\
  map snd (build_citations 0 ctxs []) = map citation_of_context ctxs.
Proof. apply (build_citations_shape ctxs 0 []); reflexivity. Qed.

(* ------------------------------------------------------------------ *)
(** ** Synthesis and validation *)

Definition synthesis_call (post : llm_post) (s : AgentState) : exc string :=
  CloudRunLLM_invoke post (synthesis_prompt (original_query s) (retrieved_contexts s)) 600 (5 # 10).

Lemma synthesis_node_ok (post : llm_post) (s : AgentState) (a : string) :
  synthesis_call post s = Ret a ->
  synthesis_node post s =
    Ret (set_citations (build_citations 0 (retrieved_contexts s) []) (set_answer (strip a) s)).
Proof. unfold synthesis_call, synthesis_node; intros H; rewrite H; reflexivity. Qed.

Lemma synthesis_node_fail (post : llm_post) (s : AgentState) (e : string) :
  synthesis_call post s = Raise e ->
  synthesis_node post s =
    Ret (set_error (Some ("Synthesis error: " ++ e))
           (set_citations [] (set_answer synthesis_failure_answer s))).
Proof. unfold synthesis_call, synthesis_node; intros H; rewrite H; reflexivity. Qed.

(** An oracle for concrete runs: the endpoint always times out. *)
Definition post_timeout : llm_post := fun _ _ _ => HttpTimeout.

Definition ctx_a : context :=
  {| content := "Exports of defense articles require a license."; document_id := "ITAR";
     section_number := "120.1"; effective_date := "2024-01-01";
     jurisdiction := "US"; score := 9 # 10; sub_query := "What is ITAR?" |}.

Definition state_with_contexts (ctxs : list context) : AgentState :=
  set_contexts ctxs (set_decomposed ["What is ITAR?"] (initial_state "What is ITAR?")).

(** C3 (as stated, refuted): when the synthesis LLM call fails, the
    citations are empty although one context was retrieved, so the keys are
    not [source_1 .. source_n] with [n = len(retrieved_contexts)]. *)
Lemma C3_citation_keys_counterexample :
  ~ (forall (post : llm_post) (s s' : AgentState),
       synthesis_node post s = Ret s' ->
       map fst (citations s') = map source_key (seq 1 (length (retrieved_contexts s)))).
Proof.
  intros H.
  specialize (H post_timeout (state_with_contexts [ctx_a])).
  vm_compute in H.
  specialize (H _ eq_refl); discriminate H.
Qed.

(** C3 (amended): when the synthesis LLM call succeeds, the citation keys
    are exactly [source_1 .. source_n] with [n = len(retrieved_contexts)], in
    context order, and the [i]-th citation is built from the [i]-th context,
    whatever the answer text. *)
Theorem synthesis_citation_keys (post : llm_post) (s : AgentState) (a : string) :
  synthesis_call post s = Ret a ->
  exists s', synthesis_node post s = Ret s' /\
    map fst (citations s') = map source_key (seq 1 (length (retrieved_contexts s))) /\
    map snd (citations s') = map citation_of_context (retrieved_contexts s).
Proof.
  intros H; eexists; split; [apply synthesis_node_ok, H |].
  apply build_citations_keys.
Qed.

Definition post_answer (t : string) : llm_post := fun _ _ _ => HttpOk (Some t).

Lemma synthesis_citation_keys_witness :
  synthesis_call (post_answer "ITAR regulates defense exports [Source 1].")
    (state_with_contexts [ctx_a; ctx_a]) = Ret "ITAR regulates defense exports [Source 1]." /\
  exists s', synthesis_node (post_answer "ITAR regulates defense exports [Source 1].")
               (state_with_contexts [ctx_a; ctx_a]) = Ret s' /\
    map fst (citations s') = map source_key (seq 1 2) /\
    map snd (citations s') = map citation_of_context [ctx_a; ctx_a].
Proof.
  split; [vm_compute; reflexivity |].
  apply (synthesis_citation_keys (post_answer "ITAR regulates defense exports [Source 1].")
           (state_with_contexts [ctx_a; ctx_a]) "ITAR regulates defense exports [Source 1].").
  vm_compute; reflexivity.
Defined.

(** C4: [validation_node] sets [validation_passed] to true iff the answer
    is longer than 50 characters and there is at least one citation. *)
Theorem validation_iff (s : AgentState) :
  exists s', validation_node s = Ret s' /\
    (validation_passed s' = true <->
     50 < String.length (synthesized_answer s) /\ 0 < length (citations s)).
Proof.
  eexists; split; [reflexivity |]; simpl.
  rewrite andb_true_iff, !Nat.ltb_lt; reflexivity.
Qed.

Definition answer_of_length (n : nat) : string := string_of_list_ascii (repeat "a"%char n).

Example validation_at_50 :
  validation_node (set_citations [(source_key 1, citation_of_context ctx_a)]
                     (set_answer (answer_of_length 50) (state_with_contexts [ctx_a])))
  = Ret (set_validation false
           (set_citations [(source_key 1, citation_of_context ctx_a)]
              (set_answer (answer_of_length 50) (state_with_contexts [ctx_a])))).
Proof. reflexivity. Qed.

Example validation_at_51 :
  validation_node (set_citations [(source_key 1, citation_of_context ctx_a)]
                     (set_answer (answer_of_length 51) (state_with_contexts [ctx_a])))
  = Ret (set_validation true
           (set_citations [(source_key 1, citation_of_context ctx_a)]
              (set_answer (answer_of_length 51) (state_with_contexts [ctx_a])))).
Proof. reflexivity. Qed.

(** C5: when the synthesis LLM call fails (for any reason, including a
    timeout or a request error), [synthesis_node] returns normally with the
    sentinel answer, empty citations and [Synthesis error: <detail>] in
    [error]; the other fields are unchanged. *)
Theorem synthesis_failure_contained (post : llm_post) (s : AgentState) (e : string) :
  synthesis_call post s = Raise e ->
  exists s', synthesis_node post s = Ret s' /\
    synthesized_answer s' = "Error generating answer." /\
    citations s' = [] /\
    error s' = Some ("Synthesis error: " ++ e) /\
    original_query s' = original_query s /\
    decomposed_queries s' = decomposed_queries s /\
    retrieved_contexts s' = retrieved_contexts s /\
    validation_passed s' = validation_passed s.
Proof.
  intros H; eexists; split; [apply synthesis_node_fail, H |].
  repeat split.
Qed.

Lemma synthesis_failure_contained_witness :
  synthesis_call post_timeout (state_with_contexts [ctx_a])
    = Raise "LLM request timeout - Cloud Run may be cold starting" /\
  exists s', synthesis_node post_timeout (state_with_contexts [ctx_a]) = Ret s' /\
    synthesized_answer s' = "Error generating answer." /\
    citations s' = [] /\
    error s' = Some ("Synthesis error: " ++ "LLM request timeout - Cloud Run may be cold starting") /\
    original_query s' = original_query (state_with_contexts [ctx_a]) /\
    decomposed_queries s' = decomposed_queries (state_with_contexts [ctx_a]) /\
    retrieved_contexts s' = retrieved_contexts (state_with_contexts [ctx_a]) /\
    validation_passed s' = validation_passed (state_with_contexts [ctx_a]).
Proof.
  split; [reflexivity |].
  apply (synthesis_failure_contained post_timeout (state_with_contexts [ctx_a])
           "LLM request timeout - Cloud Run may be cold starting").
  reflexivity.
Defined.

(** C10: after a failed synthesis LLM call, [validation_node] necessarily
    sets [validation_passed] to false: the sentinel answer has 24 <= 50
    characters and the citations are empty. *)
Theorem synthesis_failure_fails_validation (post : llm_post) (s : AgentState) (e : string) :
  synthesis_call post s = Raise e ->
  exists s2 s3, synthesis_node post s = Ret s2 /\ validation_node s2 = Ret s3 /\
    String.length (synthesized_answer s2) <= 50 /\ citations s2 = [] /\
    validation_passed s3 = false.
Proof.
  intros H; rewrite (synthesis_node_fail post s e H).
  do 2 eexists; split; [reflexivity |]; split; [reflexivity |].
  simpl; repeat split; lia.
Qed.

Lemma synthesis_failure_fails_validation_witness :
  synthesis_call (fun _ _ _ => HttpRequestError "503 Server Error") (state_with_contexts [ctx_a])
    = Raise "LLM request failed: 503 Server Error" /\
  exists s2 s3,
    synthesis_node (fun _ _ _ => HttpRequestError "503 Server Error")
      (state_with_contexts [ctx_a]) = Ret s2 /\
    validation_node s2 = Ret s3 /\
    String.length (synthesized_answer s2) <= 50 /\ citations s2 = [] /\
    validation_passed s3 = false.
Proof.
  split; [reflexivity |].
  apply (synthesis_failure_fails_validation (fun _ _ _ => HttpRequestError "503 Server Error")
           (state_with_contexts [ctx_a]) "LLM request failed: 503 Server Error").
  reflexivity.
Defined.

(* ------------------------------------------------------------------ *)
(** ** Decomposition *)

Definition decomposition_call (post : llm_post) (s : AgentState) : exc string :=
  CloudRunLLM_invoke post (decomposition_prompt (original_query s)) 300 (3 # 10).

Lemma query_decomposition_node_eq (post : llm_post) (s : AgentState) :
  query_decomposition_node post s =
    match decomposition_call post s with
    | Raise e => Ret (set_error (Some ("Decomposition error: " ++ e))
                        (set_decomposed [original_query s] s))
    | Ret r => Ret (set_decomposed (match parse_sub_queries r with
                                    | [] => [original_query s]
                                    | l => l
                                    end) s)
    end.
Proof.
  unfold query_decomposition_node, decomposition_call.
  destruct (CloudRunLLM_invoke _ _ _ _) as [r | e]; simpl; [| reflexivity].
  destruct (parse_sub_queries r); reflexivity.
Qed.

(** C2: [query_decomposition_node] never raises and never leaves
    [decomposed_queries] empty; when the LLM call raises, or its response
    parses to no sub-query, [decomposed_queries] is [[original_query]]. *)
Theorem decomposition_never_empty (post : llm_post) (s : AgentState) :
  exists s', query_decomposition_node post s = Ret s' /\
    decomposed_queries s' <> [] /\
    (forall e, decomposition_call post s = Raise e ->
               decomposed_queries s' = [original_query s]) /\
    (forall r, decomposition_call post s = Ret r -> parse_sub_queries r = [] ->
               decomposed_queries s' = [original_query s]).
Proof.
  rewrite query_decomposition_node_eq.
  destruct (decomposition_call post s) as [r | e] eqn:Hc.
  - eexists; split; [reflexivity |]; simpl.
    split; [destruct (parse_sub_queries r); discriminate |].
    split; [intros ? H; discriminate H |].
    intros r' H Hp; injection H as <-; rewrite Hp; reflexivity.
  - eexists; split; [reflexivity |]; simpl.
    split; [discriminate |]; split; [reflexivity |].
    intros ? H; discriminate H.
Qed.

Definition four_lines : string :=
  "1. What is ITAR?" ++ nl ++ "2. Who enforces ITAR?" ++ nl ++
  "3. What is a defense article?" ++ nl ++ "4. What are the penalties?".

(** C6 (as stated, refuted): a response with four numbered lines gives four
    sub-queries; nothing caps the list at three. *)
Lemma C6_at_most_three_counterexample :
  ~ (forall (post : llm_post) (s s' : AgentState),
       query_decomposition_node post s = Ret s' -> length (decomposed_queries s') <= 3).
Proof.
  intros H.
  specialize (H (post_answer four_lines) (initial_state "What is ITAR?")).
  vm_compute in H.
  specialize (H _ eq_refl); vm_compute in H; lia.
Qed.

Lemma parse_sub_queries_length (r : string) :
  length (parse_sub_queries r) <= length (split_nl (strip r)).
Proof.
  unfold parse_sub_queries; rewrite length_map.
  induction (split_nl (strip r)) as [| l ls IH]; simpl; [lia |].
  destruct (keep_line l); simpl; lia.
Qed.

(** C6 (amended): [decomposed_queries] has at least one element and at
    most max(1, number of lines of the stripped response); one element when
    the LLM call raises. No fixed bound of 3 is enforced. *)
Theorem decomposition_length_bound (post : llm_post) (s : AgentState) :
  exists s', query_decomposition_node post s = Ret s' /\
    1 <= length (decomposed_queries s') /\
    match decomposition_call post s with
    | Raise _ => length (decomposed_queries s') = 1
    | Ret r => length (decomposed_queries s') <= Nat.max 1 (length (split_nl (strip r)))
    end.
Proof.
  rewrite query_decomposition_node_eq.
  destruct (decomposition_call post s) as [r | e].
  - eexists; split; [reflexivity |].
    pose proof (parse_sub_queries_length r) as Hl.
    destruct (parse_sub_queries r) as [| q l];
      cbn [length decomposed_queries set_decomposed] in *; lia.
  - eexists; split; [reflexivity |]; simpl; lia.
Qed.

(** C7 (code bug): the node has two fallbacks to [[original_query]], and
    only the one in the [except] branch records a diagnostic. When the LLM
    call raises, [error] becomes ["Decomposition error: <detail>"]; when a
    response parses to no sub-query ([if not sub_queries:], line 101),
    [error] is left as it was, so a run that starts without an error
    continues without one. With an LLM that answers with an empty body, the
    query ["What is ITAR?"] falls back silently; with one that times out,
    the same fallback is recorded. *)
Theorem decomposition_fallback_divergence :
  (forall (post : llm_post) (s : AgentState),
    exists s', query_decomposition_node post s = Ret s' /\
      (forall e, decomposition_call post s = Raise e ->
         decomposed_queries s' = [original_query s] /\
         error s' = Some ("Decomposition error: " ++ e)) /\
      (forall r, decomposition_call post s = Ret r -> parse_sub_queries r = [] ->
         decomposed_queries s' = [original_query s] /\ error s' = error s)) /\
  (decomposition_call (post_answer "") (initial_state "What is ITAR?") = Ret "" /\
   exists s', query_decomposition_node (post_answer "") (initial_state "What is ITAR?") = Ret s' /\
     decomposed_queries s' = ["What is ITAR?"] /\ error s' = None) /\
  (exists s', query_decomposition_node post_timeout (initial_state "What is ITAR?") = Ret s' /\
     decomposed_queries s' = ["What is ITAR?"] /\
     error s' = Some "Decomposition error: LLM request timeout - Cloud Run may be cold starting").
Proof.
  split; [| split].
  - intros post s; rewrite query_decomposition_node_eq.
    destruct (decomposition_call post s) as [r | e].
    + eexists; split; [reflexivity |]; split; [intros ? H; discriminate H |].
      intros r' H Hp; injection H as <-; simpl; rewrite Hp; split; reflexivity.
    + eexists; split; [reflexivity |]; split; [| intros ? H; discriminate H].
      intros e' H; injection H as <-; split; reflexivity.
  - split; [reflexivity |]; eexists; split; [reflexivity |]; split; reflexivity.
  - eexists; split; [reflexivity |]; split; reflexivity.
Qed.

(* ------------------------------------------------------------------ *)
(** ** Top-level invocation *)

(** C1: whatever the four nodes do, including raising, the top-level
    invocation returns normally a result with an [answer] and a [citations]
    field; when an exception [e] escapes the graph, the answer is the apology
    embedding [str(e)] and the citations are [{"error": str(e)}]. *)
Theorem invoke_never_raises (decompose retrieve synthesize validate : node)
    (query user_id : string) (trace_id : option string) :
  exists r,
    agent_workflow_invoke_with (run_graph decompose retrieve synthesize validate)
      query user_id trace_id = Ret r /\
    match run_graph decompose retrieve synthesize validate (initial_state query) with
    | Ret fs => answer r = synthesized_answer fs /\
                result_citations r = map (fun kv => (fst kv, VCitation (snd kv))) (citations fs)
    | Raise e => answer r = "I encountered an error processing your compliance query: " ++ e /\
                 result_citations r = [("error", VStr e)]
    end.
Proof.
  unfold agent_workflow_invoke_with.
  destruct (run_graph decompose retrieve synthesize validate (initial_state query)) as [fs | e];
    simpl; eexists; split; try reflexivity; split; reflexivity.
Qed.

(* ------------------------------------------------------------------ *)
(** ** Retrieval *)

Section Retrieval.

Variable encode : encoder.
Variable search : searcher.

Lemma append_hits_length (sq : string) (hits : list hit) :
  forall acc, length (fst (append_hits sq hits acc)) <= length acc + length hits.
Proof.
  induction hits as [| h t IH]; intros acc; simpl; [lia |].
  destruct (payload h) as [p |]; simpl; [| lia].
  specialize (IH (acc ++ [context_of_hit p h sq])%list).
  rewrite length_app in IH; simpl in IH; lia.
Qed.

(** The Qdrant contract: a search returns at most [limit] hits. *)
Hypothesis search_limit :
  forall coll v limit hits, search coll v limit = Ret hits -> length hits <= limit.

Lemma retrieve_one_length (sq : string) (acc : list context) (err : option string) :
  length (fst (retrieve_one encode search sq acc err)) <= length acc + 3.
Proof.
  unfold retrieve_one.
  destruct (encode sq) as [v | e]; simpl; [| lia].
  destruct (search QDRANT_COLLECTION_NAME v 3) as [hits | e] eqn:Hs; simpl; [| lia].
  pose proof (search_limit _ _ _ _ Hs) as Hl.
  pose proof (append_hits_length sq hits acc) as Ha.
  destruct (append_hits sq hits acc) as [acc' [e |]]; simpl in *; lia.
Qed.

Lemma retrieve_all_length (sqs : list string) :
  forall acc err,
  length (fst (retrieve_all encode search sqs acc err)) <= length acc + length sqs * 3.
Proof.
  induction sqs as [| sq rest IH]; intros acc err; simpl; [lia |].
  pose proof (retrieve_one_length sq acc err) as H1.
  destruct (retrieve_one encode search sq acc err) as [acc' err'].
  specialize (IH acc' err'); simpl in H1; lia.
Qed.

End Retrieval.

(** C9: provided the index honours the [limit] it is passed, after
    [retrieval_node] at most 3 contexts were gathered per sub-query. *)
Theorem retrieval_bounded (encode : encoder) (search : searcher) (s : AgentState) :
  (forall coll v limit hits, search coll v limit = Ret hits -> length hits <= limit) ->
  exists s', retrieval_node encode search s = Ret s' /\
    decomposed_queries s' = decomposed_queries s /\
    length (retrieved_contexts s') <= length (decomposed_queries s') * 3.
Proof.
  intros Hlim; unfold retrieval_node.
  pose proof (retrieve_all_length encode search Hlim (decomposed_queries s) [] (error s)) as H.
  destruct (retrieve_all encode search (decomposed_queries s) [] (error s)) as [ctxs err].
  eexists; split; [reflexivity |]; simpl in *; split; [reflexivity | lia].
Qed.

Definition payload_a : dict string :=
  [("text_preview", "Exports of defense articles require a license.");
   ("document_ID", "ITAR"); ("section_number", "120.1")].

(** An index returning [limit] hits, the second without payload. *)
Definition search_demo : searcher :=
  fun _ _ limit => Ret (firstn limit
    [mk_hit (9 # 10) (Some payload_a); mk_hit (8 # 10) None; mk_hit (7 # 10) (Some payload_a);
     mk_hit (6 # 10) (Some payload_a)]).

Definition encode_demo : encoder := fun q => Ret [1 # 1; 0 # 1].

Lemma search_demo_limit :
  forall coll v limit hits, search_demo coll v limit = Ret hits -> length hits <= limit.
Proof.
  intros coll v limit hits H; unfold search_demo in H; injection H as <-.
  rewrite length_firstn; lia.
Qed.

Lemma retrieval_bounded_witness :
  (forall coll v limit hits, search_demo coll v limit = Ret hits -> length hits <= limit) /\
  exists s', retrieval_node encode_demo search_demo (state_with_contexts []) = Ret s' /\
    decomposed_queries s' = decomposed_queries (state_with_contexts []) /\
    length (retrieved_contexts s') <= length (decomposed_queries s') * 3.
Proof.
  split; [exact search_demo_limit |].
  apply (retrieval_bounded encode_demo search_demo (state_with_contexts [])).
  exact search_demo_limit.
Defined.

Example retrieval_demo_run :
  exists s', retrieval_node encode_demo search_demo (state_with_contexts []) = Ret s' /\
    length (retrieved_contexts s') = 1 /\
    error s' = Some "Retrieval error: 'NoneType' object has no attribute 'get'".
Proof. eexists; split; [reflexivity |]; split; reflexivity. Qed.

(* ------------------------------------------------------------------ *)
(** ** The [error] field across the pipeline *)











(** The four nodes of the real graph always return, and the graph is their
    composition. *)
Lemma pipeline_steps (post : llm_post) (encode : encoder) (search : searcher)
    (s : AgentState) :
  exists s1 s2 s3 fs,
    query_decomposition_node post s = Ret s1 /\
    retrieval_node encode search s1 = Ret s2 /\
    synthesis_node post s2 = Ret s3 /\
    validation_node s3 = Ret fs /\
    agent_graph post encode search s = Ret fs.
Proof.
  assert (H1 : exists s1, query_decomposition_node post s = Ret s1)
    by (rewrite query_decomposition_node_eq; destruct (decomposition_call post s); eexists; reflexivity).
  destruct H1 as [s1 H1].
  assert (H2 : exists s2, retrieval_node encode search s1 = Ret s2)
    by (unfold retrieval_node;
        destruct (retrieve_all encode search (decomposed_queries s1) [] (error s1));
        eexists; reflexivity).
  destruct H2 as [s2 H2].
  assert (H3 : exists s3, synthesis_node post s2 = Ret s3).
  { destruct (synthesis_call post s2) as [a | e] eqn:Hc;
      [rewrite (synthesis_node_ok post s2 a Hc) | rewrite (synthesis_node_fail post s2 e Hc)];
      eexists; reflexivity. }
  destruct H3 as [s3 H3].
  exists s1, s2, s3, (set_validation ((50 <? String.length (synthesized_answer s3)) &&
                                      (0 <? length (citations s3))) s3).
  split; [exact H1 |]; split; [exact H2 |]; split; [exact H3 |]; split; [reflexivity |].
  unfold agent_graph, run_graph; rewrite H1; simpl; rewrite H2; simpl; rewrite H3; reflexivity.
Qed.



(* ------------------------------------------------------------------ *)
(** ** Further properties of the code *)

(** *** Python string helpers *)

Lemma list_ascii_of_string_app (s1 s2 : string) :
  list_ascii_of_string (s1 ++ s2) = (list_ascii_of_string s1 ++ list_ascii_of_string s2)%list.
Proof. induction s1 as [| c s1 IH]; simpl; [reflexivity | rewrite IH; reflexivity]. Qed.

Lemma drop_spaces_suffix (x : list ascii) :
  exists p, x = (p ++ drop_spaces x)%list.
Proof.
  induction x as [| c r [p Hp]]; simpl; [exists []; reflexivity |].
  destruct (is_space c); [exists (c :: p); simpl; rewrite <- Hp; reflexivity |].
  exists []; reflexivity.
Qed.

Lemma drop_spaces_head (x : list ascii) :
  match drop_spaces x with [] => True | c :: _ => is_space c = false end.
Proof.
  induction x as [| c r IH]; simpl; [exact I |].
  destruct (is_space c) eqn:E; [exact IH | exact E].
Qed.

Lemma drop_spaces_noop (x : list ascii) :
  match x with [] => True | c :: _ => is_space c = false end -> drop_spaces x = x.
Proof. destruct x as [| c r]; simpl; [reflexivity | intros E; rewrite E; reflexivity]. Qed.

Lemma drop_spaces_in (c : ascii) (x : list ascii) :
  In c x -> is_space c = false -> In c (drop_spaces x).
Proof.
  induction x as [| c' r IH]; simpl; [tauto |].
  intros [<- | Hin] Hs; [rewrite Hs; left; reflexivity |].
  destruct (is_space c'); [apply IH; assumption | right; exact Hin].
Qed.

(** [s.strip()] is idempotent. *)
Lemma strip_idempotent (s : string) : strip (strip s) = strip s.
Proof.
  unfold strip; rewrite list_ascii_of_string_of_list_ascii.
  set (A := drop_spaces (list_ascii_of_string s)).
  set (B := drop_spaces (rev A)).
  assert (HA := drop_spaces_head (list_ascii_of_string s)); fold A in HA.
  assert (HB := drop_spaces_head (rev A)); fold B in HB.
  destruct (drop_spaces_suffix (rev A)) as [p Hp]; fold B in Hp.
  assert (HrevA : A = (rev B ++ rev p)%list)
    by (rewrite <- rev_app_distr, <- Hp, rev_involutive; reflexivity).
  rewrite (drop_spaces_noop (rev B)).
  - rewrite rev_involutive, (drop_spaces_noop B HB); reflexivity.
  - destruct (rev B) as [| c t]; [exact I |].
    rewrite HrevA in HA; exact HA.
Qed.

(** Characters other than whitespace survive [strip]. *)
Lemma strip_keeps (c : ascii) (s : string) :
  In c (list_ascii_of_string s) -> is_space c = false ->
  In c (list_ascii_of_string (strip s)).
Proof.
  intros Hin Hs; unfold strip; rewrite list_ascii_of_string_of_list_ascii.
  rewrite <- in_rev; apply drop_spaces_in; [| exact Hs].
  rewrite <- in_rev; apply drop_spaces_in; assumption.
Qed.

Lemma prefix_n_in (n : nat) (s : string) (c : ascii) :
  In c (list_ascii_of_string (prefix_n n s)) -> In c (list_ascii_of_string s).
Proof.
  unfold prefix_n; revert n; induction s as [| c' r IH]; intros n; simpl;
    [destruct n; simpl; tauto |].
  destruct n as [| n]; simpl; [tauto |].
  intros [<- | H]; [left; reflexivity | right; exact (IH n H)].
Qed.

Lemma digit_not_space (c : ascii) : is_digit c = true -> is_space c = false.
Proof.
  unfold is_digit, is_space; intros H.
  apply andb_true_iff in H as [H1 H2]; apply Nat.leb_le in H1, H2.
  destruct (9 <=? nat_of_ascii c) eqn:E1, (nat_of_ascii c <=? 13) eqn:E2,
           (28 <=? nat_of_ascii c) eqn:E3, (nat_of_ascii c <=? 32) eqn:E4;
    simpl; try reflexivity;
    rewrite ?Nat.leb_le, ?Nat.leb_gt in *; lia.
Qed.

(** X1: the completion endpoint ignores trailing slashes of the configured
    URL, and the part before [/completion] never ends in a slash. *)
Theorem completion_endpoint_slash (u : string) :
  completion_endpoint (u ++ "/") = completion_endpoint u /\
  match rev (list_ascii_of_string (rstrip_slash u)) with
  | [] => True
  | c :: _ => c <> "/"%char
  end.
Proof.
  split.
  - unfold completion_endpoint, rstrip_slash.
    rewrite list_ascii_of_string_app, rev_app_distr; reflexivity.
  - unfold rstrip_slash; rewrite list_ascii_of_string_of_list_ascii, rev_involutive.
    induction (rev (list_ascii_of_string u)) as [| c r IH]; simpl; [exact I |].
    destruct (Ascii.eqb c "/"%char) eqn:E; [exact IH |].
    intros ->; discriminate E.
Qed.

(** X2: a successful [CloudRunLLM.invoke] returns stripped text, so the
    [answer.strip()] of [synthesis_node] leaves it unchanged. *)
Theorem llm_invoke_stripped (post : llm_post) (prompt : string) (max_tokens : nat)
    (temperature : Q) (a : string) :
  CloudRunLLM_invoke post prompt max_tokens temperature = Ret a -> strip a = a.
Proof.
  unfold CloudRunLLM_invoke.
  destruct (post prompt max_tokens temperature); intros H; try discriminate H.
  injection H as <-; apply strip_idempotent.
Qed.

Lemma llm_invoke_stripped_witness :
  CloudRunLLM_invoke (post_answer "  ITAR governs exports.  ") "p" 600 (5 # 10)
    = Ret "ITAR governs exports." /\
  strip "ITAR governs exports." = "ITAR governs exports.".
Proof.
  split; [reflexivity |].
  apply (llm_invoke_stripped (post_answer "  ITAR governs exports.  ") "p" 600 (5 # 10)).
  reflexivity.
Defined.

(** X3: every sub-query the decomposition parser keeps is non-empty, has no
    surrounding whitespace, and contains a digit. *)
Theorem parsed_sub_query_shape (r q : string) :
  In q (parse_sub_queries r) ->
  q <> "" /\ strip q = q /\ existsb is_digit (list_ascii_of_string q) = true.
Proof.
  unfold parse_sub_queries; rewrite in_map_iff.
  intros [line [<- Hin]]; apply filter_In in Hin as [_ Hk].
  unfold keep_line in Hk; apply andb_true_iff in Hk as [Hne Hd].
  split; [intros E; rewrite E in Hne; discriminate Hne |].
  split; [apply strip_idempotent |].
  apply existsb_exists in Hd as [c [Hc Hdc]].
  apply existsb_exists; exists c; split; [| exact Hdc].
  apply strip_keeps; [apply (prefix_n_in 3); exact Hc | apply digit_not_space, Hdc].
Qed.

Lemma parsed_sub_query_shape_witness :
  In "2) Who enforces it?" (parse_sub_queries ("  1. What is ITAR?" ++ nl ++ "2) Who enforces it? ")) /\
  ("2) Who enforces it?" <> "" /\ strip "2) Who enforces it?" = "2) Who enforces it?" /\
   existsb is_digit (list_ascii_of_string "2) Who enforces it?") = true).
Proof.
  split; [vm_compute; right; left; reflexivity |].
  apply (parsed_sub_query_shape ("  1. What is ITAR?" ++ nl ++ "2) Who enforces it? ")).
  vm_compute; right; left; reflexivity.
Defined.

(** *** Retrieval *)

Lemma append_hits_provenance (sq : string) (hits : list hit) :
  forall acc c, In c (fst (append_hits sq hits acc)) -> In c acc \/ sub_query c = sq.
Proof.
  induction hits as [| h t IH]; intros acc c; simpl; [tauto |].
  destruct (payload h) as [p |]; simpl; [| tauto].
  intros Hin; destruct (IH _ _ Hin) as [H | H]; [| right; exact H].
  apply in_app_or in H as [H | [<- | []]]; [left; exact H | right; reflexivity].
Qed.

Lemma retrieve_one_provenance (encode : encoder) (search : searcher) (sq : string)
    (acc : list context) (err : option string) (c : context) :
  In c (fst (retrieve_one encode search sq acc err)) -> In c acc \/ sub_query c = sq.
Proof.
  unfold retrieve_one.
  destruct (encode sq) as [v | e]; [| simpl; tauto].
  destruct (search QDRANT_COLLECTION_NAME v 3) as [hits | e]; [| simpl; tauto].
  pose proof (append_hits_provenance sq hits acc c) as H.
  destruct (append_hits sq hits acc) as [acc' [e |]]; exact H.
Qed.

Lemma retrieve_all_provenance (encode : encoder) (search : searcher) (sqs : list string) :
  forall acc err c, In c (fst (retrieve_all encode search sqs acc err)) ->
  In c acc \/ In (sub_query c) sqs.
Proof.
  induction sqs as [| sq rest IH]; intros acc err c; simpl; [tauto |].
  pose proof (retrieve_one_provenance encode search sq acc err c) as H1.
  destruct (retrieve_one encode search sq acc err) as [acc' err'].
  intros Hin; destruct (IH _ _ _ Hin) as [H | H]; [| right; right; exact H].
  destruct (H1 H) as [H' | H']; [left; exact H' | right; left; symmetry; exact H'].
Qed.

(** X4: every context gathered by [retrieval_node] records a sub-query
    that is one of [decomposed_queries]; the sub-queries are not changed. *)
Theorem retrieval_provenance (encode : encoder) (search : searcher) (s : AgentState) :
  exists s', retrieval_node encode search s = Ret s' /\
    decomposed_queries s' = decomposed_queries s /\
    original_query s' = original_query s /\
    forall c, In c (retrieved_contexts s') -> In (sub_query c) (decomposed_queries s).
Proof.
  unfold retrieval_node.
  pose proof (retrieve_all_provenance encode search (decomposed_queries s) [] (error s)) as H.
  destruct (retrieve_all encode search (decomposed_queries s) [] (error s)) as [ctxs err].
  eexists; split; [reflexivity |]; simpl; split; [reflexivity |]; split; [reflexivity |].
  intros c Hin; destruct (H c Hin) as [[] | H']; exact H'.
Qed.

(** A search result as seen by the code: a hit with a payload. *)
Definition hit_of (ps : dict string * Q) : hit := mk_hit (snd ps) (Some (fst ps)).

Definition contexts_of (sq : string) (l : list (dict string * Q)) : list context :=
  map (fun ps => context_of_hit (fst ps) (hit_of ps) sq) l.

Lemma append_hits_full (sq : string) (l : list (dict string * Q)) :
  forall acc, append_hits sq (map hit_of l) acc = ((acc ++ contexts_of sq l)%list, None).
Proof.
  induction l as [| ps r IH]; intros acc; simpl; [rewrite app_nil_r; reflexivity |].
  rewrite IH, <- app_assoc; reflexivity.
Qed.

Lemma retrieve_all_full (encode : encoder) (search : searcher)
    (vec : string -> list Q) (results : string -> list (dict string * Q)) (sqs : list string) :
  (forall sq, In sq sqs -> encode sq = Ret (vec sq)) ->
  (forall sq, In sq sqs ->
     search QDRANT_COLLECTION_NAME (vec sq) 3 = Ret (map hit_of (results sq))) ->
  forall acc err,
  retrieve_all encode search sqs acc err =
    ((acc ++ flat_map (fun sq => contexts_of sq (results sq)) sqs)%list, err).
Proof.
  intros He Hs; induction sqs as [| sq rest IH]; intros acc err; simpl;
    [rewrite app_nil_r; reflexivity |].
  unfold retrieve_one.
  rewrite (He sq (or_introl eq_refl)), (Hs sq (or_introl eq_refl)), append_hits_full.
  rewrite IH, app_assoc; [reflexivity | |];
    intros sq' Hin; [apply He | apply Hs]; right; exact Hin.
Qed.

(** X5: when every embedding and search succeeds, [retrieved_contexts] is
    the concatenation, in sub-query order, of each sub-query's hits in rank
    order, and [error] is left as it was. *)
Theorem retrieval_order (encode : encoder) (search : searcher)
    (vec : string -> list Q) (results : string -> list (dict string * Q)) (s : AgentState) :
  (forall sq, In sq (decomposed_queries s) -> encode sq = Ret (vec sq)) ->
  (forall sq, In sq (decomposed_queries s) ->
     search QDRANT_COLLECTION_NAME (vec sq) 3 = Ret (map hit_of (results sq))) ->
  exists s', retrieval_node encode search s = Ret s' /\
    retrieved_contexts s' = flat_map (fun sq => contexts_of sq (results sq)) (decomposed_queries s) /\
    error s' = error s.
Proof.
  intros He Hs; unfold retrieval_node.
  rewrite (retrieve_all_full encode search vec results _ He Hs).
  eexists; split; [reflexivity |]; split; reflexivity.
Qed.

Definition search_full_demo : searcher :=
  fun _ _ _ => Ret [hit_of (payload_a, 9 # 10); hit_of ([("text_preview", "")], 1 # 2)].

Definition state_two_queries : AgentState :=
  set_decomposed ["1. What is ITAR?"; "2. Who enforces it?"] (initial_state "What is ITAR?").

Lemma retrieval_order_witness :
  (forall sq, In sq (decomposed_queries state_two_queries) ->
     encode_demo sq = Ret [1 # 1; 0 # 1]) /\
  (forall sq, In sq (decomposed_queries state_two_queries) ->
     search_full_demo QDRANT_COLLECTION_NAME [1 # 1; 0 # 1] 3 =
       Ret (map hit_of [(payload_a, 9 # 10); ([("text_preview", "")], 1 # 2)])) /\
  exists s', retrieval_node encode_demo search_full_demo state_two_queries = Ret s' /\
    retrieved_contexts s' =
      flat_map (fun sq => contexts_of sq [(payload_a, 9 # 10); ([("text_preview", "")], 1 # 2)])
        (decomposed_queries state_two_queries) /\
    error s' = error state_two_queries.
Proof.
  split; [intros; reflexivity |]; split; [intros; reflexivity |].
  apply (retrieval_order encode_demo search_full_demo (fun _ => [1 # 1; 0 # 1])
           (fun _ => [(payload_a, 9 # 10); ([("text_preview", "")], 1 # 2)]) state_two_queries);
    intros; reflexivity.
Defined.

Lemma retrieve_all_unreachable (encode : encoder) (search : searcher) :
  (forall coll v limit, exists e, search coll v limit = Raise e) ->
  forall sqs acc err,
  fst (retrieve_all encode search sqs acc err) = acc /\
  (sqs <> [] -> exists d, snd (retrieve_all encode search sqs acc err) = Some ("Retrieval error: " ++ d)).
Proof.
  intros Hs sqs; induction sqs as [| sq rest IH]; intros acc err; simpl.
  - split; [reflexivity | intros H; contradiction H; reflexivity].
  - assert (H1 : exists d, retrieve_one encode search sq acc err = (acc, Some ("Retrieval error: " ++ d))).
    { unfold retrieve_one; destruct (encode sq) as [v | e'];
        [destruct (Hs QDRANT_COLLECTION_NAME v 3) as [e He]; rewrite He; exists e; reflexivity
         | exists e'; reflexivity]. }
    destruct H1 as [d H1]; rewrite H1.
    destruct (IH acc (Some ("Retrieval error: " ++ d))) as [Ha Hb].
    split; [exact Ha | intros _].
    destruct rest as [| sq' rest']; [exists d; reflexivity | apply Hb; discriminate].
Qed.

Lemma retrieval_node_unreachable (encode : encoder) (search : searcher)
    (s : AgentState) :
  (forall coll v limit, exists e, search coll v limit = Raise e) ->
  exists s', retrieval_node encode search s = Ret s' /\
    retrieved_contexts s' = [] /\
    (decomposed_queries s <> [] -> exists d, error s' = Some ("Retrieval error: " ++ d)).
Proof.
  intros Hs; unfold retrieval_node.
  destruct (retrieve_all_unreachable encode search Hs (decomposed_queries s) [] (error s)) as [Ha Hb].
  destruct (retrieve_all encode search (decomposed_queries s) [] (error s)) as [ctxs err].
  eexists; split; [reflexivity |]; simpl in *; split; [exact Ha | exact Hb].
Qed.

(** X6: when the vector index is unreachable, [retrieval_node] returns
    normally with no context, and records a retrieval error as soon as there
    is a sub-query. *)
Theorem retrieval_index_unreachable (encode : encoder) (search : searcher)
    (s : AgentState) :
  (forall coll v limit, exists e, search coll v limit = Raise e) ->
  exists s', retrieval_node encode search s = Ret s' /\
    retrieved_contexts s' = [] /\
    (decomposed_queries s <> [] -> exists d, error s' = Some ("Retrieval error: " ++ d)).
Proof. apply retrieval_node_unreachable. Qed.

(** An index that fails every search, with a message that varies per call. *)
Definition search_down : searcher :=
  fun coll v _ => Raise ("Connection refused: " ++ coll ++ " [" ++ str_nat (length v) ++ "]").

Lemma retrieval_index_unreachable_witness :
  (forall coll v limit, exists e, search_down coll v limit = Raise e) /\
  exists s', retrieval_node encode_demo search_down state_two_queries = Ret s' /\
    retrieved_contexts s' = [] /\
    (decomposed_queries state_two_queries <> [] ->
       exists d, error s' = Some ("Retrieval error: " ++ d)).
Proof.
  split; [intros; eexists; reflexivity |].
  apply (retrieval_index_unreachable encode_demo search_down).
  intros; eexists; reflexivity.
Defined.

(** *** Whole pipeline *)

Lemma synthesis_node_no_contexts (post : llm_post) (s : AgentState) :
  retrieved_contexts s = [] ->
  exists s3, synthesis_node post s = Ret s3 /\ citations s3 = [] /\
    retrieved_contexts s3 = [].
Proof.
  intros Hc; destruct (synthesis_call post s) as [a | e] eqn:Hs.
  - rewrite (synthesis_node_ok post s a Hs), Hc; eexists; split; [reflexivity |].
    simpl; split; [reflexivity | exact Hc].
  - rewrite (synthesis_node_fail post s e Hs); eexists; split; [reflexivity |].
    simpl; split; [reflexivity | exact Hc].
Qed.

(** X7: with the vector index unreachable, the whole workflow still runs to
    the end: no context, no citation, validation fails, and the invocation
    returns the final answer with an empty citation mapping. *)
Theorem pipeline_index_unreachable (post : llm_post) (encode : encoder) (search : searcher)
    (query user_id : string) (trace_id : option string) :
  (forall coll v limit, exists e, search coll v limit = Raise e) ->
  exists fs, agent_graph post encode search (initial_state query) = Ret fs /\
    retrieved_contexts fs = [] /\ citations fs = [] /\ validation_passed fs = false /\
    agent_workflow_invoke_sync post encode search query user_id trace_id =
      Ret {| answer := synthesized_answer fs; result_citations := [] |}.
Proof.
  intros Hs.
  assert (H1 : exists s1, query_decomposition_node post (initial_state query) = Ret s1)
    by (rewrite query_decomposition_node_eq;
        destruct (decomposition_call post (initial_state query)); eexists; reflexivity).
  destruct H1 as [s1 H1].
  destruct (retrieval_node_unreachable encode search s1 Hs) as [s2 [H2 [Hc2 _]]].
  destruct (synthesis_node_no_contexts post s2 Hc2) as [s3 [H3 [Hc3 Hr3]]].
  assert (Hg : agent_graph post encode search (initial_state query) = validation_node s3)
    by (unfold agent_graph, run_graph; rewrite H1; simpl; rewrite H2; simpl; rewrite H3; reflexivity).
  eexists; split; [rewrite Hg; reflexivity |]; simpl.
  split; [exact Hr3 |]; split; [exact Hc3 |]; split; [rewrite Hc3, andb_false_r; reflexivity |].
  unfold agent_workflow_invoke_sync, agent_workflow_invoke_with; rewrite Hg; simpl.
  rewrite Hc3; reflexivity.
Qed.

Lemma pipeline_index_unreachable_witness :
  (forall coll v limit, exists e, search_down coll v limit = Raise e) /\
  exists fs, agent_graph (post_answer "1. What is ITAR?") encode_demo search_down
               (initial_state "What is ITAR?") = Ret fs /\
    retrieved_contexts fs = [] /\ citations fs = [] /\ validation_passed fs = false /\
    agent_workflow_invoke_sync (post_answer "1. What is ITAR?") encode_demo search_down
      "What is ITAR?" "anonymous_user" None =
      Ret {| answer := synthesized_answer fs; result_citations := [] |}.
Proof.
  split; [intros; eexists; reflexivity |].
  apply (pipeline_index_unreachable (post_answer "1. What is ITAR?") encode_demo search_down
           "What is ITAR?" "anonymous_user" None).
  intros; eexists; reflexivity.
Defined.

Lemma agent_graph_steps (post : llm_post) (encode : encoder) (search : searcher)
    (s : AgentState) :
  exists s2 s3 fs,
    agent_graph post encode search s = Ret fs /\
    synthesis_node post s2 = Ret s3 /\ validation_node s3 = Ret fs.
Proof.
  destruct (pipeline_steps post encode search s)
    as [s1 [s2 [s3 [fs [_ [_ [H3 [H4 Hg]]]]]]]].
  exists s2, s3, fs; repeat split; assumption.
Qed.

(** X8: when the workflow ends with [validation_passed = true], the
    synthesis LLM call made on the retrieval node's output succeeded and the
    final answer is its stripped response (so it is not the failure
    sentinel, and it has more than 50 characters), at least one context was
    retrieved and reached synthesis unchanged, and the citations are exactly
    [source_1 .. source_n] for the [n] contexts. *)
Theorem validated_answer_is_grounded (post : llm_post) (encode : encoder) (search : searcher)
    (s : AgentState) :
  exists s1 s2 fs,
    query_decomposition_node post s = Ret s1 /\
    retrieval_node encode search s1 = Ret s2 /\
    agent_graph post encode search s = Ret fs /\
    (validation_passed fs = true ->
       (exists a, synthesis_call post s2 = Ret a /\ synthesized_answer fs = strip a) /\
       retrieved_contexts fs = retrieved_contexts s2 /\
       retrieved_contexts fs <> [] /\
       50 < String.length (synthesized_answer fs) /\
       synthesized_answer fs <> synthesis_failure_answer /\
       map fst (citations fs) = map source_key (seq 1 (length (retrieved_contexts fs)))).
Proof.
  destruct (pipeline_steps post encode search s)
    as [s1 [s2 [s3 [fs [H1 [H2 [H3 [H4 Hg]]]]]]]].
  exists s1, s2, fs; split; [exact H1 |]; split; [exact H2 |]; split; [exact Hg |].
  injection H4 as <-; cbn [validation_passed set_validation].
  intros Hv; apply andb_true_iff in Hv as [Hlen Hcit]; apply Nat.ltb_lt in Hlen, Hcit.
  destruct (synthesis_call post s2) as [a | e] eqn:Hc.
  - rewrite (synthesis_node_ok post s2 a Hc) in H3; injection H3 as <-.
    destruct (build_citations_keys (retrieved_contexts s2)) as [Hk Hv].
    cbn [retrieved_contexts citations synthesized_answer set_validation set_citations set_answer] in *.
    split; [exists a; split; reflexivity |]; split; [reflexivity |].
    split; [| split; [exact Hlen | split; [intros E; rewrite E in Hlen; simpl in Hlen; lia | exact Hk]]].
    intros E; rewrite E in Hcit; simpl in Hcit; lia.
  - rewrite (synthesis_node_fail post s2 e Hc) in H3; injection H3 as <-.
    simpl in Hcit; lia.
Qed.

(** X9: for the real nodes, no exception ever reaches the [except] of
    [agent_workflow_invoke_sync]: the result is always the final state's
    answer and citations, never the apology. *)
Theorem invoke_returns_final_state (post : llm_post) (encode : encoder) (search : searcher)
    (query user_id : string) (trace_id : option string) :
  exists fs, agent_graph post encode search (initial_state query) = Ret fs /\
    agent_workflow_invoke_sync post encode search query user_id trace_id =
      Ret {| answer := synthesized_answer fs;
             result_citations := map (fun kv => (fst kv, VCitation (snd kv))) (citations fs) |}.
Proof.
  destruct (agent_graph_steps post encode search (initial_state query)) as [s2 [s3 [fs [Hg _]]]].
  exists fs; split; [exact Hg |].
  unfold agent_workflow_invoke_sync, agent_workflow_invoke_with; rewrite Hg; reflexivity.
Qed.

(** X10: when every synthesis LLM call fails, the invocation returns the
    synthesis sentinel with an empty citation mapping (not the apology). *)
Theorem invoke_synthesis_down (post : llm_post) (encode : encoder) (search : searcher)
    (query user_id : string) (trace_id : option string) :
  (forall prompt, exists e, CloudRunLLM_invoke post prompt 600 (5 # 10) = Raise e) ->
  agent_workflow_invoke_sync post encode search query user_id trace_id =
    Ret {| answer := "Error generating answer."; result_citations := [] |}.
Proof.
  intros Hdown.
  destruct (pipeline_steps post encode search (initial_state query))
    as [s1 [s2 [s3 [fs [_ [_ [H3 [H4 Hg]]]]]]]].
  destruct (Hdown (synthesis_prompt (original_query s2) (retrieved_contexts s2))) as [e He].
  rewrite (synthesis_node_fail post s2 e He) in H3; injection H3 as <-.
  injection H4 as <-.
  unfold agent_workflow_invoke_sync, agent_workflow_invoke_with; rewrite Hg; reflexivity.
Qed.

Lemma invoke_synthesis_down_witness :
  (forall prompt, exists e, CloudRunLLM_invoke post_timeout prompt 600 (5 # 10) = Raise e) /\
  agent_workflow_invoke_sync post_timeout encode_demo search_demo "What is ITAR?" "u1" None =
    Ret {| answer := "Error generating answer."; result_citations := [] |}.
Proof.
  split; [intros; eexists; reflexivity |].
  apply (invoke_synthesis_down post_timeout encode_demo search_demo "What is ITAR?" "u1" None).
  intros; eexists; reflexivity.
Defined.

(** *** The FastAPI endpoint *)

(** X11: for a request's [f_trace], [compliance_query] raises
    [AttributeError] at line 65, before its [try], when [f_trace] is a
    non-empty string (e.g. [?f_trace=abc]); when it is absent or empty the
    trace id is [None], and for a trace object it is the object's id. Past
    that line it returns the invocation's answer and citations with the trace
    id when the invocation returns, and the fixed critical-error answer with
    [{"error": str(e)}] when it raises [e]; a failing trace update never
    changes the response. *)
Theorem compliance_query_response
    (invoke : string -> string -> option string -> exc invoke_result)
    (request : QueryRequest) :
  (forall s, s <> "" ->
     compliance_query invoke request (FTraceStr s) =
       Raise "'str' object has no attribute 'id'") /\
  (forall f tid,
     (f = FTraceNone /\ tid = None) \/ (f = FTraceStr "" /\ tid = None) \/
     (exists t, f = FTraceObj t /\ tid = Some (trace_id_of t)) ->
     compliance_query invoke request f =
       match invoke (user_query request) (user_id request) tid with
       | Ret r => Ret {| resp_answer := answer r; resp_citations := result_citations r;
                         resp_trace_id := tid |}
       | Raise e => Ret {| resp_answer := "I am currently experiencing a critical error.";
                           resp_citations := [("error", VStr e)];
                           resp_trace_id := tid |}
       end).
Proof.
  split.
  - intros s Hs; unfold compliance_query; cbn [ftrace_truthy].
    destruct (String.eqb_spec s "") as [E | _]; [contradiction | reflexivity].
  - intros f tid [[-> ->] | [[-> ->] | [t [-> ->]]]];
      unfold compliance_query, update_trace; cbn;
      destruct (invoke _ _ _) as [r | e]; cbn; try reflexivity;
      destruct (trace_update t); reflexivity.
Qed.

(** X12: served by the real workflow, the endpoint never returns the
    critical-error response: for [f_trace] absent, empty or a trace object
    it returns the final state's answer and citations, with the trace id;
    for a non-empty string it raises at line 65 instead. *)
Theorem compliance_query_pipeline (post : llm_post) (encode : encoder) (search : searcher)
    (request : QueryRequest) :
  exists fs, agent_graph post encode search (initial_state (user_query request)) = Ret fs /\
    forall f_trace,
      compliance_query (agent_workflow_invoke_sync post encode search) request f_trace =
        match f_trace with
        | FTraceStr s =>
            if String.eqb s "" then
              Ret {| resp_answer := synthesized_answer fs;
                     resp_citations := map (fun kv => (fst kv, VCitation (snd kv))) (citations fs);
                     resp_trace_id := None |}
            else Raise "'str' object has no attribute 'id'"
        | FTraceNone =>
            Ret {| resp_answer := synthesized_answer fs;
                   resp_citations := map (fun kv => (fst kv, VCitation (snd kv))) (citations fs);
                   resp_trace_id := None |}
        | FTraceObj t =>
            Ret {| resp_answer := synthesized_answer fs;
                   resp_citations := map (fun kv => (fst kv, VCitation (snd kv))) (citations fs);
                   resp_trace_id := Some (trace_id_of t) |}
        end.
Proof.
  destruct (pipeline_steps post encode search (initial_state (user_query request)))
    as [s1 [s2 [s3 [fs [_ [_ [_ [_ Hg]]]]]]]].
  exists fs; split; [exact Hg |].
  intros f_trace.
  unfold compliance_query, update_trace, agent_workflow_invoke_sync, agent_workflow_invoke_with.
  destruct f_trace as [| s | [tid [u | eu]]]; cbn; try (rewrite Hg; reflexivity).
  destruct (String.eqb s ""); cbn; [rewrite Hg; reflexivity | reflexivity].
Qed.

(** *** Citations *)

Lemma substring_prefix_length (n : nat) (s : string) :
  String.length (substring 0 n s) = Nat.min n (String.length s) /\
  String.prefix (substring 0 n s) s = true.
Proof.
  revert n; induction s as [| c r IH]; intros n; destruct n as [| n]; simpl;
    try (split; reflexivity).
  destruct (IH n) as [H1 H2]; split; [rewrite H1; reflexivity |].
  destruct (Ascii.ascii_dec c c) as [_ | N]; [exact H2 | contradiction N; reflexivity].
Qed.

(** X13: a citation's snippet is the first min(200, len(content))
    characters of the context's content followed by ["..."]. *)
Theorem citation_snippet_shape (ctx : context) :
  exists p, snippet (citation_of_context ctx) = p ++ "..." /\
    String.length p = Nat.min 200 (String.length (content ctx)) /\
    String.prefix p (content ctx) = true.
Proof.
  exists (prefix_n 200 (content ctx)); split; [reflexivity |].
  apply substring_prefix_length.
Qed.

(** *** Prompt numbering and citation keys *)

Definition source_block (j : nat) (ctx : context) : string :=
  "[Source " ++ str_nat (S j) ++ "] Doc: " ++ document_id ctx ++
  ", Section: " ++ section_number ctx ++ nl ++ content ctx.

Lemma source_blocks_nth (ctxs : list context) :
  forall k i, nth_error (source_blocks k ctxs) i = option_map (source_block (k + i)) (nth_error ctxs i).
Proof.
  induction ctxs as [| ctx r IH]; intros k i; destruct i as [| i]; simpl; try reflexivity.
  - rewrite Nat.add_0_r; reflexivity.
  - rewrite IH, Nat.add_succ_r; reflexivity.
Qed.

Lemma nth_error_pairs {A B} (l : list (A * B)) (la : list A) (lb : list B) (i : nat) (b : B) :
  map fst l = la -> map snd l = lb -> nth_error lb i = Some b ->
  exists a, nth_error la i = Some a /\ nth_error l i = Some (a, b).
Proof.
  intros <- <- Hb; rewrite nth_error_map in *.
  destruct (nth_error l i) as [[a b'] |]; simpl in *; [| discriminate Hb].
  injection Hb as <-; exists a; split; reflexivity.
Qed.

(** X15: the synthesis prompt labels the [i]-th context [[Source i+1]] and,
    when the LLM call succeeds, the [i]-th citation is keyed [source_<i+1>]
    and built from that same context: prompt labels and citation keys agree. *)
Theorem source_numbering_agrees (post : llm_post) (s : AgentState) :
  length (source_blocks 0 (retrieved_contexts s)) = length (retrieved_contexts s) /\
  forall i ctx, nth_error (retrieved_contexts s) i = Some ctx ->
    nth_error (source_blocks 0 (retrieved_contexts s)) i = Some (source_block i ctx) /\
    forall a s', synthesis_call post s = Ret a -> synthesis_node post s = Ret s' ->
      nth_error (citations s') i = Some (source_key (S i), citation_of_context ctx).
Proof.
  split.
  - generalize 0; induction (retrieved_contexts s) as [| c r IH]; intros k; simpl;
      [reflexivity | rewrite IH; reflexivity].
  - intros i ctx Hi; split; [rewrite source_blocks_nth, Hi; reflexivity |].
    intros a s' Hc Hs; rewrite (synthesis_node_ok post s a Hc) in Hs; injection Hs as <-.
    cbn [citations set_citations].
    destruct (build_citations_keys (retrieved_contexts s)) as [Hk Hv].
    assert (Hb : nth_error (map citation_of_context (retrieved_contexts s)) i
                 = Some (citation_of_context ctx)) by (rewrite nth_error_map, Hi; reflexivity).
    destruct (nth_error_pairs _ _ _ i _ Hk Hv Hb) as [k [Hka Hl]].
    rewrite Hl; f_equal; f_equal.
    assert (Hlt : i < length (retrieved_contexts s))
      by (apply nth_error_Some; rewrite Hi; discriminate).
    apply Nat.ltb_lt in Hlt.
    rewrite nth_error_map, nth_error_seq, Hlt in Hka; simpl in Hka.
    injection Hka as <-; reflexivity.
Qed.
